(** * Bag-of-Words sentiment notebook: cleaning, vectorizing, scoring

    A shallow embedding of the code cells of
    [under_development/text_mining/udacity_NLP_testing_v1.1.ipynb].

    The notebook is a sequence of calls into third-party libraries
    (BeautifulSoup, NLTK, pandas, scikit-learn).  What the notebook
    itself writes (the regular expression, [lower], [split], the
    stop-word filter, the order of the steps, the loop of [clean_data]
    with its lookups by label, the arguments handed to the libraries) is
    embedded below as Rocq functions.  What the libraries do is taken as
    a parameter ([Py.Unicode], [TextLibs], [Analyzer], [Booster]), each
    library call a function of its arguments, or, for the vectorizer,
    the normalizer and the scorer, modelled from the specification's
    description of them.

    Text is unicode text: a list of code points.  A character is its
    code point, a natural number. *)

From Stdlib Require Import Ascii String ZArith NArith QArith Lia.
From Corelib Require PrimFloat.
From Stdlib Require Uint63.
From stdpp Require Import base tactics option list sorting strings gmap.

Local Open Scope nat_scope.

(* ===================================================================== *)
(** * Part I: definitions                                                 *)
(* ===================================================================== *)

(** ** Text *)

Abbreviation char := N (only parsing).
Abbreviation text := (list N) (only parsing).

(** The text of a literal, as in Python's [u"..."]: the code points of
    its characters. *)
Definition u (literal : string) : text :=
  N_of_ascii <$> list_ascii_of_string literal.

(** ** Python string built-ins used by [review_to_words] *)

Module Py.
Local Open Scope N_scope.

(** Python's unicode character tables outside ASCII, which are no part
    of the repository: the lower-case form of a character and whether it
    counts as whitespace. *)
Class Unicode := {
  tolower : char → char;
  isspace : char → bool
}.

(** Membership in the character class [a-zA-Z]. *)
Definition is_upper (c : char) : bool := (65 <=? c) && (c <=? 90).
Definition is_lower (c : char) : bool := (97 <=? c) && (c <=? 122).
Definition is_letter (c : char) : bool := is_lower c || is_upper c.

Definition space : char := 32.

(** [re.sub("[^a-zA-Z]", " ", text)]: every character outside the class
    is replaced by one space; the others stay. *)
Definition re_sub_non_letters (s : text) : text :=
  (λ c, if is_letter c then c else space) <$> s.

(** [s.lower()] on unicode text: A..Z move to a..z, 32 places up, the
    other ASCII characters stay, and a character outside ASCII goes
    where the tables send it. *)
Definition lower_char `{Unicode} (c : char) : char :=
  if is_upper c then c + 32
  else if c <? 128 then c
  else tolower c.
Definition lower `{Unicode} (s : text) : text := lower_char <$> s.

(** Characters on which [split()] with no separator cuts: in ASCII tab,
    LF, VT, FF, CR, FS, GS, RS, US and space; outside ASCII what the
    tables say. *)
Definition is_space `{Unicode} (c : char) : bool :=
  if c <? 128
  then ((9 <=? c) && (c <=? 13)) || ((28 <=? c) && (c <=? 32))
  else isspace c.

(** [s.split()]: scan left to right, [cur] holding the word read so
    far; a whitespace character closes the current word when there is
    one, and runs of whitespace produce no empty word. *)
Fixpoint split_go `{Unicode} (cur : text) (s : text) : list text :=
  match s with
  | [] => if decide (cur = []) then [] else [cur]
  | c :: s' =>
      if is_space c
      then (if decide (cur = []) then split_go [] s'
            else cur :: split_go [] s')
      else split_go (cur ++ [c]) s'
  end.
Definition split `{Unicode} (s : text) : list text := split_go [] s.

(** [sep.join(words)]. *)
Fixpoint join (sep : text) (words : list text) : text :=
  match words with
  | [] => []
  | [w] => w
  | w :: ws => w ++ sep ++ join sep ws
  end.

End Py.

(** ** The text libraries the cleaner calls *)

(** [get_text raw] is [BeautifulSoup(raw).get_text()],
    [stopwords_words_english] is [stopwords.words("english")] and
    [stem w] is [stemmer.stem(w)] for the module-level
    [stemmer = PorterStemmer()]. *)
Class TextLibs := {
  get_text : text → text;
  stopwords_words_english : list text;
  stem : text → text
}.

(** ** Cell 8: [review_to_words] and [clean_data] *)

Definition review_to_words `{Py.Unicode} `{TextLibs} (raw_review : text) : text :=
  let review_text := get_text raw_review in
  let letters_only := Py.re_sub_non_letters review_text in
  let words := Py.split (Py.lower letters_only) in
  let stops : gset text := list_to_set stopwords_words_english in
  let meaningful_words := filter (λ w, w ∉ stops) words in
  let stemmed_words := map stem meaningful_words in
  Py.join (u " ") stemmed_words.

(** A pandas [Series] of reviews with integer labels, each label used
    once: the map from a label to its review.  [dataset.size] is the
    number of entries and [dataset[i]] looks the label [i] up, failing
    with a [KeyError] when no entry carries it.  (A series that uses a
    label twice, or labels that are no integers, is outside this type.) *)
Abbreviation Series := (gmap Z (list N)) (only parsing).

(** The loop [for i in xrange(0, num_reviews)] of [clean_data], with the
    list [cleaned_reviews] it appends to. *)
Fixpoint clean_data_loop `{Py.Unicode} `{TextLibs} (dataset : Series)
    (indices : list nat) (cleaned_reviews : list text) : option (list text) :=
  match indices with
  | [] => Some cleaned_reviews
  | i :: rest =>
      match dataset !! Z.of_nat i with
      | Some raw => clean_data_loop dataset rest (cleaned_reviews ++ [review_to_words raw])
      | None => None
      end
  end.

Definition clean_data `{Py.Unicode} `{TextLibs} (dataset : Series) : option (list text) :=
  let num_reviews := size dataset in
  clean_data_loop dataset (seq 0 num_reviews) [].

(** ** The cleaning steps as the specification words them *)

(** A second reading of the cleaner, written from the specification's
    list of steps ("strip markup, strip non-letters, lowercase, tokenize
    on whitespace, drop stop words, stem remaining tokens, rejoin") and
    from nothing of the code: the letters are the fifty-two of the two
    alphabets, lower-casing looks a capital up in the alphabet,
    whitespace is the six blank characters of ASCII, tokens are maximal
    runs, stop words are looked up in the list.  It is compared with
    [review_to_words] below. *)
Module Spec.

Definition small_letters : text := u "abcdefghijklmnopqrstuvwxyz".
Definition capital_letters : text := u "ABCDEFGHIJKLMNOPQRSTUVWXYZ".

Definition strip_markup `{TextLibs} (document : text) : text := get_text document.

Definition is_a_letter (c : char) : bool :=
  bool_decide (c ∈ small_letters ++ capital_letters).

Definition strip_non_letters (s : text) : text :=
  (λ c, if is_a_letter c then c else 32%N) <$> s.

(** The small letter at the place a capital has in its alphabet; any
    other character as it is. *)
Definition to_small (c : char) : char :=
  match list_find (λ x, x = c) capital_letters with
  | Some (i, _) => default c (small_letters !! i)
  | None => c
  end.

Definition lowercase (s : text) : text := to_small <$> s.

(** Tab, line feed, vertical tab, form feed, carriage return, space. *)
Definition blanks : text := [9; 10; 11; 12; 13; 32]%N.

Definition is_blank (c : char) : bool := bool_decide (c ∈ blanks).

(** The tokens of a text: its maximal runs of characters that are no
    blanks. *)
Fixpoint tokenize (s : text) : list text :=
  match s with
  | [] => []
  | c :: rest =>
      if is_blank c then tokenize rest
      else match rest with
           | [] => [[c]]
           | c' :: _ =>
               if is_blank c' then [c] :: tokenize rest
               else match tokenize rest with
                    | w :: ws => (c :: w) :: ws
                    | [] => [[c]]
                    end
           end
  end.

Definition is_stop_word `{TextLibs} (w : text) : bool :=
  bool_decide (Exists (λ stop, stop = w) stopwords_words_english).

Definition drop_stop_words `{TextLibs} (tokens : list text) : list text :=
  List.filter (λ w, negb (is_stop_word w)) tokens.

Definition stem_tokens `{TextLibs} (tokens : list text) : list text :=
  List.map stem tokens.

(** Tokens put back into one text, one space between neighbours. *)
Definition rejoin (tokens : list text) : text :=
  match tokens with
  | [] => []
  | w :: ws => fold_left (λ acc t, acc ++ [32%N] ++ t) ws w
  end.

Definition clean `{TextLibs} (document : text) : text :=
  rejoin (stem_tokens (drop_stop_words (tokenize (lowercase
    (strip_non_letters (strip_markup document)))))).

End Spec.

(** ** Shape of a cleaned token *)

(** A word: nonempty, every character one of a..z. *)
Definition lowercase_word (w : text) : Prop :=
  w ≠ [] ∧ Forall (λ c, Py.is_lower c = true) w.

(** A word in the scanner's sense: nonempty and free of whitespace. *)
Definition solid `{Py.Unicode} (w : text) : Prop :=
  w ≠ [] ∧ Forall (λ c, Py.is_space c = false) w.

(** The scanner of [split] with the word [cur] in hand, read off the
    specification's tokens of the text still to scan. *)
Definition resume (cur s : text) : list text :=
  if decide (cur = []) then Spec.tokenize s
  else match s with
       | [] => [cur]
       | c :: _ =>
           if Spec.is_blank c then cur :: Spec.tokenize s
           else match Spec.tokenize s with
                | w :: ws => (cur ++ w) :: ws
                | [] => [cur]
                end
       end.

(** Two texts that differ at most in the case of their letters A..Z,
    a..z. *)
Definition same_up_to_letter_case `{Py.Unicode} (s t : text) : Prop :=
  Forall2 (λ c d, c = d ∨ (Py.is_letter c = true ∧ Py.is_letter d = true
                            ∧ Py.lower_char c = Py.lower_char d)) s t.

#[export] Instance same_up_to_letter_case_dec `{Py.Unicode} s t :
  Decision (same_up_to_letter_case s t).
Proof. unfold same_up_to_letter_case. apply _. Defined.

(** ** A sample configuration of the text libraries *)

(** Concrete stand-ins on which the generic results are run: a fragment
    of the unicode tables (the accented capitals below 256, the Kelvin
    sign and the dotted capital I, two blanks), a tag stripper that
    drops [<...>] spans (what [get_text] does on closed tags, with no
    entities, comments or scripts around), NLTK's English stop-word
    list, and step 1a of Porter's algorithm (plural endings), applied
    like the library to words of more than two letters. *)
Module Sample.

#[export] Instance unicode : Py.Unicode := {|
  Py.tolower c :=
    if (c =? 8490)%N then 107%N
    else if (c =? 304)%N then 105%N
    else if ((192 <=? c) && (c <=? 222) && negb (c =? 215))%N then (c + 32)%N
    else c;
  Py.isspace c := ((c =? 133) || (c =? 160))%N
|}.

Fixpoint strip_tags (in_tag : bool) (s : text) : text :=
  match s with
  | [] => []
  | c :: s' =>
      if in_tag
      then strip_tags (negb (c =? 62)%N) s'
      else if (c =? 60)%N then strip_tags true s'
           else c :: strip_tags false s'
  end.

Definition english : list text :=
  u <$>
  [ "i"; "me"; "my"; "myself"; "we"; "our"; "ours"; "ourselves"; "you";
    "your"; "yours"; "yourself"; "yourselves"; "he"; "him"; "his";
    "himself"; "she"; "her"; "hers"; "herself"; "it"; "its"; "itself";
    "they"; "them"; "their"; "theirs"; "themselves"; "what"; "which";
    "who"; "whom"; "this"; "that"; "these"; "those"; "am"; "is"; "are";
    "was"; "were"; "be"; "been"; "being"; "have"; "has"; "had"; "having";
    "do"; "does"; "did"; "doing"; "a"; "an"; "the"; "and"; "but"; "if";
    "or"; "because"; "as"; "until"; "while"; "of"; "at"; "by"; "for";
    "with"; "about"; "against"; "between"; "into"; "through"; "during";
    "before"; "after"; "above"; "below"; "to"; "from"; "up"; "down"; "in";
    "out"; "on"; "off"; "over"; "under"; "again"; "further"; "then";
    "once"; "here"; "there"; "when"; "where"; "why"; "how"; "all"; "any";
    "both"; "each"; "few"; "more"; "most"; "other"; "some"; "such"; "no";
    "nor"; "not"; "only"; "own"; "same"; "so"; "than"; "too"; "very"; "s";
    "t"; "can"; "will"; "just"; "don"; "should"; "now"; "d"; "ll"; "m";
    "o"; "re"; "ve"; "y"; "ain"; "aren"; "couldn"; "didn"; "doesn";
    "hadn"; "hasn"; "haven"; "isn"; "ma"; "mightn"; "mustn"; "needn";
    "shan"; "shouldn"; "wasn"; "weren"; "won"; "wouldn" ]%string.

(** [w] without its last [n] characters. *)
Definition chop (n : nat) (w : text) : text := take (length w - n) w.

Definition ends_with (suffix : string) (w : text) : bool :=
  bool_decide (drop (length w - length (u suffix)) w = u suffix).

(** Porter, step 1a: SSES -> SS, IES -> I, SS -> SS, S -> (nothing). *)
Definition step1a (w : text) : text :=
  if ends_with "sses" w then chop 2 w
  else if ends_with "ies" w then chop 2 w
  else if ends_with "ss" w then w
  else if ends_with "s" w then chop 1 w
  else w.

Definition plural_stem (w : text) : text :=
  if length w <=? 2 then w else step1a w.

#[export] Instance libs : TextLibs := {|
  get_text := strip_tags false;
  stopwords_words_english := english;
  stem := plural_stem
|}.

End Sample.

(** ** The vectorizer (cells 11 to 14) *)

(** What [analyzer = "word"] makes of one document: its list of tokens. *)
Class Analyzer := build_analyzer : text → list text.

(** Modelled from the spec: scikit-learn's [CountVectorizer] is not among
    the repository's files.  The object holds its configured maximum and,
    once fitted, the vocabulary: "an ordered set of at most N distinct
    tokens". *)
Record CountVectorizer := {
  max_features : nat;
  vocabulary_ : option (list text)
}.

(** Modelled from the spec: first step of [CountVectorizer.fit] (not in
    the repository): the tokens of the whole training corpus. *)
Definition corpus_tokens `{Analyzer} (raw_documents : list text) : list text :=
  raw_documents ≫= build_analyzer.

(** Modelled from the spec: the count [CountVectorizer.fit] (not in the
    repository) ranks by: how often a token occurs across the corpus. *)
Definition frequency (tokens : list text) (t : text) : nat :=
  length (filter (λ x, x = t) tokens).

(** Modelled from the spec: the order of [CountVectorizer.fit] (not in
    the repository), "chosen by frequency": the more frequent token comes
    first. *)
Definition more_frequent (tokens : list text) (a b : text) : Prop :=
  frequency tokens b ≤ frequency tokens a.

#[export] Instance more_frequent_dec tokens a b : Decision (more_frequent tokens a b).
Proof. unfold more_frequent. apply _. Defined.

(** Modelled from the spec: the selection of [CountVectorizer.fit] (not
    in the repository), "select top-N frequent tokens": the distinct
    tokens, ordered by decreasing frequency, cut after the first [n]. *)
Definition select_vocabulary (n : nat) (tokens : list text) : list text :=
  take n (merge_sort (more_frequent tokens) (remove_dups tokens)).

(** Modelled from the spec: [CountVectorizer.fit] (not in the
    repository), "fit once on training corpus". *)
Definition fit `{Analyzer} (v : CountVectorizer) (raw_documents : list text)
    : CountVectorizer :=
  {| max_features := max_features v;
     vocabulary_ := Some (select_vocabulary (max_features v) (corpus_tokens raw_documents)) |}.

(** Modelled from the spec: the lookup of [CountVectorizer.transform]
    (not in the repository): the position of a token in the vocabulary. *)
Definition index_of (vocabulary : list text) (t : text) : option nat :=
  fst <$> list_find (λ x, x = t) vocabulary.

(** Modelled from the spec: one step of [CountVectorizer.transform]
    (not in the repository), "unseen tokens ignored": a token with a
    position bumps the counter there, any other token changes nothing. *)
Definition bump (vocabulary : list text) (counts : list Z) (t : text) : list Z :=
  match index_of vocabulary t with
  | Some j => alter Z.succ j counts
  | None => counts
  end.

(** Modelled from the spec: one row of [CountVectorizer.transform] (not
    in the repository), "a count vector over that fixed vocabulary": one
    counter per vocabulary position, all zero before the document's
    tokens are read one by one. *)
Definition count_tokens (vocabulary : list text) (tokens : list text) : list Z :=
  foldl (bump vocabulary) (replicate (length vocabulary) 0%Z) tokens.

(** Modelled from the spec: [CountVectorizer.transform] (not in the
    repository), "transform maps any cleaned document to a count
    vector".  The call returns the object as it is afterwards
    together with the matrix, one row per document; an object that was
    never fitted has no vocabulary and the call fails. *)
Definition transform `{Analyzer} (v : CountVectorizer) (raw_documents : list text)
    : option (CountVectorizer * list (list Z)) :=
  vocabulary ← vocabulary_ v;
  Some (v, map (λ doc, count_tokens vocabulary (build_analyzer doc)) raw_documents).

(** Cell 11.  The second component is what [joblib.dump] writes. *)
Definition make_BoW_transform `{Analyzer} (train_dataset : list text)
    : CountVectorizer * gmap string CountVectorizer :=
  let BoW_transform := {| max_features := 5000; vocabulary_ := None |} in
  let BoW_transform := fit BoW_transform train_dataset in
  let dumped := {[ "BoW_transform.pkl" := BoW_transform ]} in
  (BoW_transform, dumped).

(** The notebook's variables from cell 9 on. *)
Record Notebook := {
  clean_training_data : list text;
  clean_testing_data : list text;
  BoW_transform : option CountVectorizer;
  training_BoW_features : option (list (list Z));
  testing_BoW_features : option (list (list Z))
}.

(** Cell 12. *)
Definition cell_12 `{Analyzer} (nb : Notebook) : Notebook :=
  {| clean_training_data := clean_training_data nb;
     clean_testing_data := clean_testing_data nb;
     BoW_transform := Some (make_BoW_transform (clean_training_data nb)).1;
     training_BoW_features := training_BoW_features nb;
     testing_BoW_features := testing_BoW_features nb |}.

(** Cell 14: both sets go through the fitted object, one after the
    other ([toarray] only changes the matrix's representation). *)
Definition cell_14 `{Analyzer} (nb : Notebook) : option Notebook :=
  bow ← BoW_transform nb;
  '(bow, training) ← transform bow (clean_training_data nb);
  '(bow, testing) ← transform bow (clean_testing_data nb);
  Some {| clean_training_data := clean_training_data nb;
          clean_testing_data := clean_testing_data nb;
          BoW_transform := Some bow;
          training_BoW_features := Some training;
          testing_BoW_features := Some testing |}.

(** A run of [transform] calls on one object, the object threaded
    through; the result is the object after the last call. *)
Fixpoint transform_calls `{Analyzer} (v : CountVectorizer) (calls : list (list text))
    : option CountVectorizer :=
  match calls with
  | [] => Some v
  | docs :: rest => '(v', _) ← transform v docs; transform_calls v' rest
  end.

(** A sample analyzer: lower-case, cut on whitespace, keep the tokens of
    two or more characters (under the sample unicode tables). *)
Module SampleAnalyzer.
#[export] Instance word : Analyzer :=
  λ doc, filter (λ w, 2 ≤ length w)
           (@Py.split Sample.unicode (@Py.lower Sample.unicode doc)).
End SampleAnalyzer.

(** ** The classifier (cell 19) *)

Record GradientBoostingClassifier := {
  n_estimators : nat;
  learning_rate : Q;
  max_depth : nat;
  random_state : option Z
}.

(** The boosting library: the type of feature values, of fitted
    ensembles and of the ambient state of the pseudo-random generator;
    [boost_fit] trains (and fails on input it rejects), [boost_predict]
    labels one feature vector. *)
Class Booster := {
  feature : Type;
  ensemble : Type;
  generator : Type;
  boost_fit : GradientBoostingClassifier → generator →
              list (list feature) → list Z → option ensemble;
  boost_predict : ensemble → list feature → Z
}.

(** Modelled from the spec: the count behind
    [GradientBoostingClassifier.score] (not in the repository): the
    number of vectors of a labeled set whose predicted label is the given
    one. *)
Definition hits `{Booster} (clf : ensemble) (X : list (list feature)) (y : list Z) : nat :=
  length (filter (λ p, boost_predict clf p.1 = p.2) (zip X y)).

(** Modelled from the spec: [GradientBoostingClassifier.score] (not in
    the repository), "a scoring operation returning mean accuracy on a
    given labeled set"; there is no mean over an empty set or over
    vectors and labels of different numbers. *)
Definition score `{Booster} (clf : ensemble) (X : list (list feature)) (y : list Z)
    : option Q :=
  if decide (length X = length y ∧ 0 < length X)
  then Some (Z.of_nat (hits clf X y) # Pos.of_nat (length X))
  else None.

(** Cell 19.  The result is what the call shows: the model it dumps and
    the two accuracies it prints, training set first. *)
Definition perform_classification `{Booster} (ambient : generator)
    (X_train : list (list feature)) (y_train : list Z)
    (X_test : list (list feature)) (y_test : list Z)
    : option (gmap string ensemble * (Q * Q)) :=
  let clf := {| n_estimators := 100; learning_rate := 1;
                max_depth := 1; random_state := Some 0%Z |} in
  fitted ← boost_fit clf ambient X_train y_train;
  let dumped := {[ "learned_booster.pkl" := fitted ]} in
  train_accuracy ← score fitted X_train y_train;
  test_accuracy ← score fitted X_test y_test;
  Some (dumped, (train_accuracy, test_accuracy)).

(** The library's promise for a seed: a classifier built with
    [random_state] set draws nothing from the ambient generator. *)
Definition seeded_fit_is_ambient_free `{Booster} : Prop :=
  ∀ clf g g' X y, is_Some (random_state clf) → boost_fit clf g X y = boost_fit clf g' X y.

(** A sample learner: one rule, the more frequent training label (label 1
    on a tie); without a seed it takes the ambient generator's value. *)
Module SampleBooster.

Definition majority (y : list Z) : Z :=
  if decide (length y ≤ 2 * length (filter (λ l, l = 1%Z) y)) then 1%Z else 0%Z.

Definition one_rule (clf : GradientBoostingClassifier) (g : Z)
    (X : list (list Z)) (y : list Z) : option Z :=
  if decide (length X = length y ∧ 0 < length X)
  then Some (match random_state clf with Some _ => majority y | None => g end)
  else None.

#[export] Instance learner : Booster := {|
  feature := Z;
  ensemble := Z;
  generator := Z;
  boost_fit := one_rule;
  boost_predict := λ label _, label
|}.

End SampleBooster.


(** ** The normalizer (cell 17) *)

Module Norm.
Import PrimFloat.

(** Modelled from the spec: the sum behind
    [sklearn.preprocessing.normalize] (not in the repository): the
    squares of a row's entries, added in double precision from the left. *)
Definition sum_of_squares (row : list float) : float :=
  foldl (λ acc x, (acc + x * x)%float) 0%float row.

(** Modelled from the spec: the norm [sklearn.preprocessing.normalize]
    (not in the repository) scales by: the Euclidean norm of a row, in
    double precision. *)
Definition row_norm (row : list float) : float := sqrt (sum_of_squares row).

(** Modelled from the spec: one row of [sklearn.preprocessing.normalize]
    (not in the repository), "scales each feature vector to unit norm
    along its own dimension": every entry is divided by the row's norm;
    a row of norm zero is divided by one ("zero vector for empty
    documents"). *)
Definition normalize_row (row : list float) : list float :=
  let norm := row_norm row in
  let norm := if (norm =? 0)%float then 1%float else norm in
  (λ x, (x / norm)%float) <$> row.





End Norm.

(* ===================================================================== *)
(** * Part II: properties                                                 *)
(* ===================================================================== *)

(** ** Characters *)

Section Characters.
Import Py.
Context `{Unicode}.
Local Open Scope N_scope.

(** Comparisons of code points are settled case by case. *)
Local Ltac cmp :=
  unfold lower_char, is_space, is_letter in *; unfold is_lower, is_upper, space in *;
  repeat match goal with
    | |- context [(?a <=? ?b)] => destruct (N.leb_spec a b)
    | |- context [(?a <? ?b)] => destruct (N.ltb_spec a b)
    | E : context [(?a <=? ?b)] |- _ => destruct (N.leb_spec a b)
    | E : context [(?a <? ?b)] |- _ => destruct (N.ltb_spec a b)
    end;
  simpl in *; try congruence; try lia.

Lemma is_lower_bounds c : is_lower c = true → 97 ≤ c ≤ 122.
Proof. intros E. cmp. Qed.

Lemma lower_char_letter c : is_letter c = true → is_lower (lower_char c) = true.
Proof. intros E. cmp. Qed.

Lemma lower_char_lower c : is_lower c = true → lower_char c = c.
Proof. intros E. cmp. Qed.

Lemma lower_is_letter c : is_lower c = true → is_letter c = true.
Proof. intros E. cmp. Qed.

Lemma lower_not_space c : is_lower c = true → is_space c = false.
Proof. intros E. cmp. Qed.

Lemma letter_below_128 c : is_letter c = true → c < 128.
Proof. intros E. cmp. Qed.

Lemma space_is_space : is_space space = true.
Proof. reflexivity. Qed.

Lemma lower_char_space : lower_char space = space.
Proof. reflexivity. Qed.

(** A property of the ASCII characters is settled by running it on the
    128 of them. *)
Lemma each_below_128 (P : char → bool) :
  forallb (λ n, P (N.of_nat n)) (seq 0 128) = true → ∀ c, c < 128 → P c = true.
Proof.
  intros HP c Hc. rewrite forallb_forall in HP.
  specialize (HP (N.to_nat c)). rewrite N2Nat.id in HP.
  apply HP, in_seq. lia.
Qed.

(** The letters of the regular expression are the fifty-two letters of
    the two alphabets. *)
Lemma is_a_letter_is_letter c : Spec.is_a_letter c = is_letter c.
Proof.
  destruct (N.ltb_spec c 128) as [Hc|Hc].
  - apply Bool.eqb_prop. revert c Hc.
    apply (each_below_128 (λ c, Bool.eqb (Spec.is_a_letter c) (is_letter c))).
    vm_compute. reflexivity.
  - transitivity false; [|symmetry; cmp].
    apply bool_decide_eq_false_2. intros Hin.
    assert (Forall (λ x, x < 128) (Spec.small_letters ++ Spec.capital_letters)) as Hall
      by (refine (bool_decide_unpack _ _); vm_compute; exact I).
    rewrite Forall_forall in Hall. specialize (Hall c Hin). lia.
Qed.

(** On ASCII, [lower] is the look-up in the alphabets. *)
Lemma to_small_lower_char c : c < 128 → Spec.to_small c = lower_char c.
Proof.
  intros Hc. apply N.eqb_eq. revert c Hc.
  apply (each_below_128 (λ c, Spec.to_small c =? lower_char c)).
  vm_compute. reflexivity.
Qed.

(** On a space and on the letters a..z, the blanks of the specification
    are the whitespace of [split]. *)
Lemma is_blank_is_space c :
  c = space ∨ is_lower c = true → Spec.is_blank c = is_space c.
Proof.
  intros [->|Hc]; [reflexivity|].
  rewrite lower_not_space by done. apply bool_decide_eq_false_2. intros Hin.
  assert (Forall (λ x, x ≤ 32) Spec.blanks) as Hall
    by (refine (bool_decide_unpack _ _); vm_compute; exact I).
  rewrite Forall_forall in Hall. specialize (Hall c Hin).
  apply is_lower_bounds in Hc. lia.
Qed.

End Characters.

(** ** [split], [join] and the specification's tokens *)

Section SplitJoin.
Import Py.
Context `{Unicode}.

(** Reading a run of non-whitespace characters only grows the word held. *)
Lemma split_go_run w cur rest :
  Forall (λ c, is_space c = false) w →
  split_go cur (w ++ rest) = split_go (cur ++ w) rest.
Proof.
  revert cur. induction w as [|c w IH]; intros cur Hw; simpl.
  - by rewrite app_nil_r.
  - apply Forall_cons in Hw as [Hc Hw].
    rewrite Hc, IH by done. by rewrite <- app_assoc.
Qed.

Lemma split_go_space cur s :
  cur ≠ [] → split_go cur (space :: s) = cur :: split_go [] s.
Proof. intros Hne. simpl. by rewrite decide_False. Qed.

Lemma join_cons sep w ws :
  join sep (w :: ws) = match ws with [] => w | _ => w ++ sep ++ join sep ws end.
Proof. done. Qed.

(** Splitting what [join] glued with single spaces gives the words back. *)
Lemma split_join ws : Forall solid ws → split (join [space] ws) = ws.
Proof.
  unfold split. induction 1 as [|w ws [Hne Hw] Hws IH]; [done|].
  rewrite join_cons. destruct ws as [|w' ws'].
  - pose proof (split_go_run w [] [] Hw) as E.
    rewrite app_nil_r in E. rewrite E. simpl. by rewrite decide_False.
  - rewrite split_go_run by done.
    change ([] ++ w) with w.
    change ([space] ++ join [space] (w' :: ws')) with (space :: join [space] (w' :: ws')).
    by rewrite split_go_space, IH.
Qed.

(** Every word [split_go] returns is nonempty and made of the
    non-whitespace characters it read. *)
Lemma split_go_words (P : char → Prop) s cur :
  Forall (λ c, is_space c = true ∨ P c) s →
  Forall P cur →
  Forall (λ w, w ≠ [] ∧ Forall P w) (split_go cur s).
Proof.
  revert cur. induction s as [|c s IH]; intros cur Hs Hcur; simpl.
  - case_decide; [done|]. by apply Forall_singleton.
  - apply Forall_cons in Hs as [Hc Hs]. destruct (is_space c) eqn:Ec.
    + case_decide; [by apply IH|].
      apply Forall_cons; split; [done | by apply IH].
    + apply IH; [done|]. apply Forall_app; split; [done|].
      apply Forall_singleton. by destruct Hc as [?|?]; [congruence|].
Qed.

Lemma split_spaces s :
  Forall (λ c, is_space c = true) s → split s = [].
Proof.
  unfold split. induction s as [|c s IH]; simpl; [done|].
  intros [-> Hs]%Forall_cons. by apply IH.
Qed.

Lemma resume_empty s : resume [] s = Spec.tokenize s.
Proof. unfold resume. by case_decide. Qed.

(** Where the blanks of the specification are the whitespace of
    [split], the scanner finds the specification's tokens. *)
Lemma split_go_resume s cur :
  Forall (λ c, Spec.is_blank c = is_space c) s →
  split_go cur s = resume cur s.
Proof.
  revert cur. induction s as [|c s IH]; intros cur Hs.
  - unfold resume; simpl. by case_decide.
  - apply Forall_cons in Hs as [Hc Hs]. specialize (λ cur, IH cur Hs).
    simpl split_go. rewrite <- Hc. destruct (Spec.is_blank c) eqn:Ec.
    + rewrite !IH, !resume_empty. unfold resume. simpl. by rewrite Ec.
    + rewrite IH. unfold resume.
      rewrite decide_False by (by destruct cur).
      simpl Spec.tokenize. rewrite Ec.
      destruct s as [|c' s'].
      * case_decide as Hcur; [by rewrite Hcur | done].
      * destruct (Spec.is_blank c') eqn:Ec'.
        -- case_decide as Hcur; [by rewrite Hcur | done].
        -- destruct (Spec.tokenize (c' :: s')) as [|w ws];
             (case_decide as Hcur; [by rewrite Hcur |]); [done|].
           by rewrite <- app_assoc.
Qed.

Lemma split_tokenize s :
  Forall (λ c, Spec.is_blank c = is_space c) s → split s = Spec.tokenize s.
Proof. intros Hs. unfold split. by rewrite split_go_resume, resume_empty. Qed.

Lemma rejoin_join ws : Spec.rejoin ws = join [space] ws.
Proof.
  destruct ws as [|w ws]; [done|]. unfold Spec.rejoin.
  revert w. induction ws as [|x ws IH]; intros w; [done|].
  simpl fold_left. rewrite IH, !join_cons. destruct ws as [|y ws]; [done|].
  by rewrite <- !app_assoc.
Qed.

(** A whitespace character cuts the text in two: the words of the
    whole are the words before it followed by the words after it. *)
Lemma split_go_cut cur s c t :
  is_space c = true →
  split_go cur (s ++ c :: t) = split_go cur s ++ split t.
Proof.
  intros Hc. revert cur. induction s as [|d s IH]; intros cur.
  - simpl. rewrite Hc. by case_decide.
  - simpl. destruct (is_space d); [|apply IH].
    case_decide; [apply IH|]. by rewrite IH.
Qed.

Lemma split_cut s t : split (s ++ [space] ++ t) = split s ++ split t.
Proof. unfold split at 1 2. by apply split_go_cut. Qed.

Lemma filter_all {A} (P : A → Prop) `{∀ x, Decision (P x)} (l : list A) :
  Forall P l → filter P l = l.
Proof.
  induction 1 as [|x l Hx Hl IH]; [done|].
  by rewrite filter_cons, decide_True, IH.
Qed.

Lemma filter_none {A} (P : A → Prop) `{∀ x, Decision (P x)} (l : list A) :
  Forall (λ x, ¬ P x) l → filter P l = [].
Proof.
  induction 1 as [|x l Hx Hl IH]; [done|].
  by rewrite filter_cons, decide_False, IH.
Qed.

Lemma map_fixed {A} (f : A → A) (l : list A) :
  Forall (λ x, f x = x) l → f <$> l = l.
Proof. induction 1 as [|x l Hx Hl IH]; csimpl; [done | by rewrite Hx, IH]. Qed.

End SplitJoin.

(** ** The cleaner *)

Section Cleaner.
Import Py.
Context `{Unicode} `{TextLibs}.

(** The words the cleaner splits a review into, before any is dropped. *)
Lemma review_to_words_unfold raw :
  review_to_words raw =
  join [space] (stem <$> filter (λ w, w ∉ (list_to_set stopwords_words_english : gset text))
                                (split (lower (re_sub_non_letters (get_text raw))))).
Proof. done. Qed.

(** After the regular expression, a text holds spaces and letters only. *)
Lemma letters_only_chars s :
  Forall (λ c, c = space ∨ is_letter c = true) (re_sub_non_letters s).
Proof.
  apply Forall_fmap, Forall_forall. intros c _. simpl.
  destruct (is_letter c) eqn:Ec; auto.
Qed.

(** After the regular expression and [lower], a text holds spaces and
    letters a..z only. *)
Lemma letters_only_lower_chars s :
  Forall (λ c, c = space ∨ is_lower c = true) (lower (re_sub_non_letters s)).
Proof.
  apply Forall_fmap. eapply Forall_impl; [apply letters_only_chars|].
  intros c [->|Hc]; simpl; [by left|]. right. by apply lower_char_letter.
Qed.

Lemma words_lowercase s :
  Forall lowercase_word (split (lower (re_sub_non_letters s))).
Proof.
  apply (split_go_words (λ c, is_lower c = true)); [|done].
  eapply Forall_impl; [apply letters_only_lower_chars|].
  intros c [->|Hc]; [left; apply space_is_space | by right].
Qed.

Lemma lowercase_word_solid w : lowercase_word w → solid w.
Proof.
  intros [Hne Hw]. split; [done|].
  eapply Forall_impl; [exact Hw|]. intros c. apply lower_not_space.
Qed.

(** A text joined from lower-case words is left alone by the regular
    expression and by [lower]. *)
Lemma join_words_chars ws :
  Forall lowercase_word ws →
  Forall (λ c, c = space ∨ is_lower c = true) (join [space] ws).
Proof.
  induction 1 as [|w ws [_ Hw] Hws IH]; [by constructor|].
  rewrite join_cons. destruct ws as [|w' ws'].
  - eapply Forall_impl; [exact Hw|]. by right.
  - apply Forall_app; split.
    + eapply Forall_impl; [exact Hw|]. by right.
    + apply Forall_app; split; [|done]. apply Forall_singleton. by left.
Qed.

Lemma re_sub_join_words ws :
  Forall lowercase_word ws → re_sub_non_letters (join [space] ws) = join [space] ws.
Proof.
  intros Hws. apply map_fixed. eapply Forall_impl; [by apply join_words_chars|].
  intros c [->|Hc]; simpl; [done|]. by rewrite (lower_is_letter c Hc).
Qed.

Lemma lower_join_words ws :
  Forall lowercase_word ws → lower (join [space] ws) = join [space] ws.
Proof.
  intros Hws. apply map_fixed. eapply Forall_impl; [by apply join_words_chars|].
  intros c [->|Hc]; simpl; [done|]. by apply lower_char_lower.
Qed.

(** The tokens that reach the output, under a stemmer that returns
    lower-case words for lower-case words. *)
Lemma stemmed_words_lowercase raw :
  (∀ w, lowercase_word w → lowercase_word (stem w)) →
  Forall lowercase_word
    (stem <$> filter (λ w, w ∉ (list_to_set stopwords_words_english : gset text))
                     (split (lower (re_sub_non_letters (get_text raw))))).
Proof.
  intros Hstem. apply Forall_fmap, Forall_forall.
  intros w [_ Hw]%list_elem_of_filter. apply Hstem.
  revert w Hw. apply Forall_forall, words_lowercase.
Qed.

Lemma kept_words_solid raw :
  (∀ w, lowercase_word w → lowercase_word (stem w)) →
  Forall solid
    (stem <$> filter (λ w, w ∉ (list_to_set stopwords_words_english : gset text))
                     (split (lower (re_sub_non_letters (get_text raw))))).
Proof.
  intros Hstem. eapply Forall_impl; [by apply stemmed_words_lowercase|].
  apply lowercase_word_solid.
Qed.

(** Splitting the output gives back the stemmed words it was joined
    from. *)
Lemma split_review_to_words raw :
  (∀ w, lowercase_word w → lowercase_word (stem w)) →
  split (review_to_words raw)
  = stem <$> filter (λ w, w ∉ (list_to_set stopwords_words_english : gset text))
                    (split (lower (re_sub_non_letters (get_text raw)))).
Proof.
  intros Hstem. rewrite review_to_words_unfold. by apply split_join, kept_words_solid.
Qed.

(** *** The specification's steps against the code's *)

Lemma map_agree {A B} (f g : A → B) (l : list A) :
  Forall (λ x, f x = g x) l → f <$> l = g <$> l.
Proof. induction 1 as [|x l Hx Hl IH]; csimpl; [done | by rewrite Hx, IH]. Qed.

Lemma strip_non_letters_re_sub s : Spec.strip_non_letters s = re_sub_non_letters s.
Proof.
  apply map_agree, Forall_forall. intros c _.
  by rewrite is_a_letter_is_letter.
Qed.

Lemma lowercase_lower_letters_only s :
  Spec.lowercase (re_sub_non_letters s) = lower (re_sub_non_letters s).
Proof.
  apply map_agree. eapply Forall_impl; [apply letters_only_chars|].
  intros c [->|Hc]; [reflexivity|]. by apply to_small_lower_char, letter_below_128.
Qed.

Lemma tokenize_split_letters_only s :
  Spec.tokenize (lower (re_sub_non_letters s)) = split (lower (re_sub_non_letters s)).
Proof.
  symmetry. apply split_tokenize.
  eapply Forall_impl; [apply letters_only_lower_chars|].
  intros c. apply is_blank_is_space.
Qed.

(** The stop-word test of the specification's reading is the set test
    of the code. *)
Lemma is_stop_word_spec w :
  Spec.is_stop_word w = true ↔ w ∈ (list_to_set stopwords_words_english : gset text).
Proof.
  unfold Spec.is_stop_word.
  rewrite bool_decide_eq_true, elem_of_list_to_set, Exists_exists.
  split; [by intros (x & Hx & ->) | intros Hw; by exists w].
Qed.

Lemma drop_stop_words_filter ws :
  Spec.drop_stop_words ws =
  filter (λ w, w ∉ (list_to_set stopwords_words_english : gset text)) ws.
Proof.
  induction ws as [|w ws IH]; [done|].
  rewrite filter_cons. unfold Spec.drop_stop_words in *. simpl. rewrite IH.
  destruct (Spec.is_stop_word w) eqn:E; simpl.
  - apply is_stop_word_spec in E. by rewrite decide_False by auto.
  - rewrite decide_True; [done|]. intros Hw%is_stop_word_spec. congruence.
Qed.

End Cleaner.

(** ** The sample stemmer returns words for words *)

Section SampleStemmer.
Import Py.

Lemma chop_lowercase n w :
  lowercase_word w → n < length w → lowercase_word (Sample.chop n w).
Proof.
  intros [_ Hw] Hn. unfold Sample.chop. split.
  - intros E. apply (f_equal length) in E.
    rewrite length_take in E. simpl in E. lia.
  - by apply Forall_take.
Qed.

Lemma plural_stem_lowercase w :
  lowercase_word w → lowercase_word (Sample.plural_stem w).
Proof.
  intros Hw. unfold Sample.plural_stem.
  destruct (length w <=? 2) eqn:E; [done|].
  apply Nat.leb_gt in E. unfold Sample.step1a.
  repeat (destruct (Sample.ends_with _ w)); try done; apply chop_lowercase; (done || lia).
Qed.

End SampleStemmer.

(** ** The cleaner: what the specification claims of it *)

Section CleanerClaims.
Import Py.

(** The cleaner under the sample configuration. *)
Local Abbreviation sample_clean := (@review_to_words Sample.unicode Sample.libs).

(** C2.  For every input text, [review_to_words] returns what the
    steps the specification lists return when applied in its order:
    strip markup, replace every character that is none of the fifty-two
    letters by a space, move each capital to its small letter, split on
    blanks into maximal runs, drop the words found in the English stop
    list, stem each remaining token, rejoin with single spaces. *)
Theorem review_to_words_is_the_listed_steps `{Unicode} `{TextLibs} (raw_review : text) :
  review_to_words raw_review = Spec.clean raw_review.
Proof.
  unfold Spec.clean, Spec.stem_tokens, Spec.strip_markup.
  rewrite rejoin_join, drop_stop_words_filter, strip_non_letters_re_sub.
  by rewrite lowercase_lower_letters_only, tokenize_split_letters_only.
Qed.

(** The order of the regular expression and [lower] matters, and the
    code's order is the specification's: the Kelvin sign is no letter,
    so it is blanked, although [lower] would turn it into a [k]. *)
Example kelvin_sign_is_blanked_before_lower :
  @lower Sample.unicode [8490%N] = u "k"
  ∧ sample_clean [8490%N] = []
  ∧ @Spec.clean Sample.libs [8490%N] = []
  ∧ sample_clean (u "k") = u "k".
Proof. vm_compute. done. Qed.

(** C9.  When the text left after markup stripping holds no letter
    (no character of a..z, A..Z), [review_to_words] returns the empty
    text; it returns a text on every input. *)
Theorem review_to_words_without_letters `{Unicode} `{TextLibs} (raw_review : text) :
  Forall (λ c, is_letter c = false) (get_text raw_review) →
  review_to_words raw_review = [].
Proof.
  intros Hno. rewrite review_to_words_unfold, split_spaces; [done|].
  apply Forall_fmap, Forall_fmap. eapply Forall_impl; [exact Hno|].
  intros c Hc. simpl. by rewrite Hc.
Qed.

Lemma review_to_words_without_letters_witness :
  Forall (λ c, is_letter c = false) (@get_text Sample.libs (u "<br />12, 34... 56!"))
  ∧ sample_clean (u "<br />12, 34... 56!") = []
  ∧ sample_clean [] = [].
Proof.
  split; [refine (bool_decide_unpack _ _); vm_compute; exact I|]. split.
  - apply (@review_to_words_without_letters Sample.unicode Sample.libs).
    refine (bool_decide_unpack _ _). vm_compute. exact I.
  - apply (@review_to_words_without_letters Sample.unicode Sample.libs). constructor.
Defined.

(** C10.  Under a stemmer that returns a nonempty word of letters
    a..z for every such word, every whitespace-separated token of the
    output of [review_to_words] is nonempty and made of letters a..z
    only. *)
Theorem review_to_words_tokens_are_lowercase_words
    `{Unicode} `{TextLibs} (raw_review : text) :
  (∀ w, lowercase_word w → lowercase_word (stem w)) →
  Forall lowercase_word (split (review_to_words raw_review)).
Proof.
  intros Hstem. pose proof (stemmed_words_lowercase raw_review Hstem) as Hws.
  rewrite review_to_words_unfold, split_join; [done|].
  eapply Forall_impl; [exact Hws|]. apply lowercase_word_solid.
Qed.

Lemma review_to_words_tokens_are_lowercase_words_witness :
  @split Sample.unicode (sample_clean (u "<p>The Cats <b>sat</b> on 3 mats!</p>"))
    = [u "cat"; u "sat"; u "mat"]
  ∧ Forall lowercase_word
      (@split Sample.unicode (sample_clean (u "<p>The Cats <b>sat</b> on 3 mats!</p>"))).
Proof.
  split; [vm_compute; reflexivity|].
  apply (@review_to_words_tokens_are_lowercase_words Sample.unicode Sample.libs).
  exact plural_stem_lowercase.
Defined.

End CleanerClaims.

(** ** Cleaning twice *)

Section Idempotence.
Import Py.

Local Abbreviation sample_clean := (@review_to_words Sample.unicode Sample.libs).

(** C1, as the specification states it, fails: under the sample
    libraries the review "ands" is cleaned to "and" (the plural ending
    goes), and "and", a stop word, is cleaned to the empty text.
    BeautifulSoup, NLTK's stop-word list and NLTK's Porter stemmer act
    the same way on these two inputs. *)
Lemma review_to_words_not_idempotent :
  (sample_clean (sample_clean (u "ands"))) ≠ (sample_clean (u "ands")).
Proof. vm_compute. discriminate. Qed.

(** C1, amended.  Let [s] be the output of [review_to_words] on some
    review, under a stemmer that returns lower-case words for
    lower-case words.  If markup stripping leaves [s] as it is, and no
    token of [s] is a stop word or is changed by the stemmer, then
    cleaning [s] again returns [s]. *)
Theorem review_to_words_idempotent_on_stable_tokens
    `{Unicode} `{TextLibs} (raw_review : text) :
  let s := review_to_words raw_review in
  (∀ w, lowercase_word w → lowercase_word (stem w)) →
  get_text s = s →
  Forall (λ t, (t ∉ stopwords_words_english) ∧ stem t = t) (split s) →
  review_to_words s = s.
Proof.
  intros s Hstem Htext Hstable.
  pose proof (stemmed_words_lowercase raw_review Hstem) as Hws.
  subst s. rewrite (review_to_words_unfold raw_review) in *.
  set (ws := stem <$> filter _ _) in *.
  assert (Forall solid ws) as Hsolid
    by (eapply Forall_impl; [exact Hws | apply lowercase_word_solid]).
  rewrite split_join in Hstable by done.
  rewrite review_to_words_unfold, Htext.
  rewrite re_sub_join_words, lower_join_words, split_join by done.
  rewrite filter_all, map_fixed; [done | |].
  - eapply Forall_impl; [exact Hstable|]. by intros t [_ ?].
  - eapply Forall_impl; [exact Hstable|]. intros t [Ht _].
    by rewrite elem_of_list_to_set.
Qed.

Lemma review_to_words_idempotent_on_stable_tokens_witness :
  sample_clean (u "<p>The Cats <b>sat</b> on 3 mats!</p>") = u "cat sat mat"
  ∧ sample_clean (sample_clean (u "<p>The Cats <b>sat</b> on 3 mats!</p>"))
    = sample_clean (u "<p>The Cats <b>sat</b> on 3 mats!</p>").
Proof.
  split; [vm_compute; reflexivity|].
  apply (@review_to_words_idempotent_on_stable_tokens Sample.unicode Sample.libs
           (u "<p>The Cats <b>sat</b> on 3 mats!</p>")).
  - exact plural_stem_lowercase.
  - vm_compute. reflexivity.
  - refine (bool_decide_unpack _ _). vm_compute. exact I.
Defined.

End Idempotence.

(** ** The vectorizer *)

Section VectorizerFacts.

(** *** The fitted vocabulary *)

Lemma select_vocabulary_length n tokens : length (select_vocabulary n tokens) ≤ n.
Proof. unfold select_vocabulary. rewrite length_take. lia. Qed.

Lemma select_vocabulary_NoDup n tokens : NoDup (select_vocabulary n tokens).
Proof.
  unfold select_vocabulary. eapply sublist_NoDup; [|apply sublist_take].
  rewrite merge_sort_Permutation. apply NoDup_remove_dups.
Qed.

(** Only tokens of the corpus are chosen. *)
Lemma select_vocabulary_from_corpus n tokens t :
  t ∈ select_vocabulary n tokens → t ∈ tokens.
Proof.
  unfold select_vocabulary. intros Ht%subseteq_take.
  pose proof (merge_sort_Permutation (more_frequent tokens) (remove_dups tokens)) as Hp.
  rewrite Hp in Ht. by apply (elem_of_remove_dups tokens t).
Qed.

(** *** Counting *)

Lemma index_of_unseen vocabulary t : t ∉ vocabulary → index_of vocabulary t = None.
Proof.
  intros Ht. unfold index_of.
  rewrite (proj2 (list_find_None (λ x, x = t) vocabulary)); [done|].
  apply Forall_forall. by intros x Hx ->.
Qed.

Lemma index_of_position vocabulary t j :
  NoDup vocabulary → vocabulary !! j = Some t → index_of vocabulary t = Some j.
Proof.
  intros Hnd Hj. unfold index_of.
  destruct (list_find_elem_of (λ x, x = t) vocabulary t) as [[i x] Hfind];
    [by eapply list_elem_of_lookup_2 | done |].
  rewrite Hfind. simpl. f_equal.
  apply list_find_Some in Hfind as (Hi & -> & _). by eapply NoDup_lookup.
Qed.

Lemma index_of_Some vocabulary t j :
  index_of vocabulary t = Some j → vocabulary !! j = Some t.
Proof.
  unfold index_of. intros ([i x] & Hfind & ->)%fmap_Some.
  by apply list_find_Some in Hfind as (Hi & -> & _).
Qed.

Lemma bump_length vocabulary counts t :
  length (bump vocabulary counts t) = length counts.
Proof. unfold bump. destruct (index_of vocabulary t); [apply length_alter | done]. Qed.

Lemma bump_nonnegative vocabulary counts t :
  Forall (λ x, (0 ≤ x)%Z) counts → Forall (λ x, (0 ≤ x)%Z) (bump vocabulary counts t).
Proof.
  intros Hc. unfold bump. destruct (index_of vocabulary t); [|done].
  apply Forall_alter; [done|]. intros; lia.
Qed.

Lemma foldl_bump_length vocabulary tokens counts :
  length (foldl (bump vocabulary) counts tokens) = length counts.
Proof.
  revert counts. induction tokens as [|t tokens IH]; intros counts; simpl; [done|].
  by rewrite IH, bump_length.
Qed.

Lemma foldl_bump_nonnegative vocabulary tokens counts :
  Forall (λ x, (0 ≤ x)%Z) counts →
  Forall (λ x, (0 ≤ x)%Z) (foldl (bump vocabulary) counts tokens).
Proof.
  revert counts. induction tokens as [|t tokens IH]; intros counts Hc; simpl; [done|].
  by apply IH, bump_nonnegative.
Qed.

(** Reading a document and reading only its tokens that have a place
    in the vocabulary leave the same counters. *)
Lemma foldl_bump_seen vocabulary tokens counts :
  foldl (bump vocabulary) counts tokens
  = foldl (bump vocabulary) counts (filter (λ t, t ∈ vocabulary) tokens).
Proof.
  revert counts. induction tokens as [|t tokens IH]; intros counts; [done|].
  rewrite filter_cons. case_decide as Ht; simpl.
  - apply IH.
  - unfold bump at 2. rewrite index_of_unseen by done. apply IH.
Qed.

(** Counter [j] ends at its start value plus the number of
    occurrences of the [j]-th vocabulary token. *)
Lemma foldl_bump_lookup vocabulary tokens counts j t :
  NoDup vocabulary → vocabulary !! j = Some t →
  foldl (bump vocabulary) counts tokens !! j
  = (λ x, (x + Z.of_nat (frequency tokens t))%Z) <$> counts !! j.
Proof.
  intros Hnd Hj. revert counts.
  induction tokens as [|u tokens IH]; intros counts.
  - unfold frequency. simpl. destruct (counts !! j) as [x|]; simpl; [|done].
    f_equal. lia.
  - simpl foldl. rewrite IH. unfold frequency. rewrite filter_cons.
    case_decide as Hu.
    + subst u. unfold bump. rewrite (index_of_position _ _ _ Hnd Hj).
      rewrite list_lookup_alter_eq. destruct (counts !! j) as [x|]; simpl; [|done].
      f_equal. lia.
    + unfold bump. destruct (index_of vocabulary u) as [i|] eqn:Hi; [|done].
      rewrite list_lookup_alter_ne; [done|].
      intros ->. apply index_of_Some in Hi. congruence.
Qed.

Lemma count_tokens_length vocabulary tokens :
  length (count_tokens vocabulary tokens) = length vocabulary.
Proof. unfold count_tokens. by rewrite foldl_bump_length, length_replicate. Qed.

Lemma count_tokens_nonnegative vocabulary tokens :
  Forall (λ x, (0 ≤ x)%Z) (count_tokens vocabulary tokens).
Proof. apply foldl_bump_nonnegative, Forall_replicate. lia. Qed.

Lemma count_tokens_seen vocabulary tokens :
  count_tokens vocabulary tokens
  = count_tokens vocabulary (filter (λ t, t ∈ vocabulary) tokens).
Proof. apply foldl_bump_seen. Qed.

(** The [j]-th entry of a count vector is the number of occurrences
    of the [j]-th vocabulary token in the document. *)
Lemma count_tokens_lookup vocabulary tokens j t :
  NoDup vocabulary → vocabulary !! j = Some t →
  count_tokens vocabulary tokens !! j = Some (Z.of_nat (frequency tokens t)).
Proof.
  intros Hnd Hj. unfold count_tokens. rewrite (foldl_bump_lookup _ _ _ j t) by done.
  rewrite lookup_replicate_2; [done|]. by eapply lookup_lt_Some.
Qed.

End VectorizerFacts.

Section VectorizerClaims.
Context `{Analyzer}.

Lemma transform_fitted v vocabulary raw_documents :
  vocabulary_ v = Some vocabulary →
  transform v raw_documents
  = Some (v, (λ doc, count_tokens vocabulary (build_analyzer doc)) <$> raw_documents).
Proof. intros Hv. unfold transform. by rewrite Hv. Qed.

Lemma transform_calls_fitted v vocabulary calls :
  vocabulary_ v = Some vocabulary → transform_calls v calls = Some v.
Proof.
  intros Hv. induction calls as [|docs calls IH]; simpl; [done|].
  by rewrite (transform_fitted _ _ _ Hv).
Qed.

Lemma make_BoW_transform_vocabulary train_dataset :
  vocabulary_ (make_BoW_transform train_dataset).1
  = Some (select_vocabulary 5000 (corpus_tokens train_dataset)).
Proof. done. Qed.

(** C3.  For every training corpus, the vocabulary of the vectorizer
    [make_BoW_transform] returns holds distinct tokens, at most the
    configured maximum of 5000 of them, and after any run of
    [transform] calls the object still holds that vocabulary. *)
Theorem vocabulary_within_max_features
    (train_dataset : list text) (calls : list (list text)) :
  let fitted := (make_BoW_transform train_dataset).1 in
  ∃ vocabulary,
    vocabulary_ fitted = Some vocabulary
    ∧ max_features fitted = 5000
    ∧ NoDup vocabulary
    ∧ length vocabulary ≤ max_features fitted
    ∧ ∃ after, transform_calls fitted calls = Some after
               ∧ vocabulary_ after = Some vocabulary.
Proof.
  intros fitted. exists (select_vocabulary 5000 (corpus_tokens train_dataset)).
  split; [done|]. split; [done|]. split; [apply select_vocabulary_NoDup|].
  split; [apply select_vocabulary_length|].
  exists fitted. split; [|done].
  by apply (transform_calls_fitted _ _ _ (make_BoW_transform_vocabulary train_dataset)).
Qed.

(** C4.  For every list of documents transformed with the fitted
    vectorizer there is one feature vector per document, each as long
    as the vocabulary and with no negative entry. *)
Theorem feature_vectors_fit_the_vocabulary
    (train_dataset raw_documents : list text) :
  let fitted := (make_BoW_transform train_dataset).1 in
  ∃ vocabulary X,
    vocabulary_ fitted = Some vocabulary
    ∧ transform fitted raw_documents = Some (fitted, X)
    ∧ length X = length raw_documents
    ∧ Forall (λ row, length row = length vocabulary ∧ Forall (λ x, (0 ≤ x)%Z) row) X.
Proof.
  intros fitted. eexists _, _. split; [apply make_BoW_transform_vocabulary|].
  split; [by apply transform_fitted|]. split; [by rewrite length_fmap|].
  apply Forall_fmap, Forall_forall. intros doc _. simpl. split.
  - apply count_tokens_length.
  - apply count_tokens_nonnegative.
Qed.

(** C6.  Transforming any documents returns the fitted object as it
    was, vocabulary included; a document's row is the row of the
    document with every token outside the vocabulary removed; and
    cell 14, which transforms the training and the test set, leaves
    the notebook with the vectorizer cell 12 fitted. *)
Theorem transform_keeps_vocabulary_and_skips_unseen
    (train_dataset raw_documents : list text) :
  let fitted := (make_BoW_transform train_dataset).1 in
  ∃ vocabulary X,
    vocabulary_ fitted = Some vocabulary
    ∧ transform fitted raw_documents = Some (fitted, X)
    ∧ X = (λ doc, count_tokens vocabulary
                    (filter (λ t, t ∈ vocabulary) (build_analyzer doc)))
          <$> raw_documents
    ∧ ∀ nb, ∃ nb', cell_14 (cell_12 nb) = Some nb'
                   ∧ BoW_transform nb' = BoW_transform (cell_12 nb).
Proof.
  intros fitted. eexists _, _. split; [apply make_BoW_transform_vocabulary|].
  split; [by apply transform_fitted|]. split.
  - apply list_fmap_ext. intros _ doc _. apply count_tokens_seen.
  - intros nb. eexists. split; reflexivity.
Qed.

End VectorizerClaims.

(** ** The classifier *)

Section ClassifierClaims.
Context `{Booster}.

Lemma score_bounds clf X y a : score clf X y = Some a → (0 <= a <= 1)%Q.
Proof.
  unfold score. case_decide as Hn; [|done]. intros [= <-].
  destruct Hn as [Hlen Hpos].
  assert (hits clf X y ≤ length X) as Hhits.
  { unfold hits. etrans; [apply length_filter|]. rewrite length_zip. lia. }
  unfold Qle. simpl. rewrite Z.mul_1_r.
  assert (Z.pos (Pos.of_nat (length X)) = Z.of_nat (length X)) as ->.
  { rewrite <- positive_nat_Z, Nat2Pos.id; [done | lia]. }
  lia.
Qed.

(** C7.  Under a library whose seeded fit draws nothing from the
    ambient generator, [perform_classification] prints the same
    accuracies whatever the ambient generator's state, and the
    accuracies it prints lie between 0 and 1. *)
Theorem perform_classification_accuracies
    (g g' : generator) (X_train : list (list feature)) (y_train : list Z)
    (X_test : list (list feature)) (y_test : list Z) :
  seeded_fit_is_ambient_free →
  perform_classification g X_train y_train X_test y_test
  = perform_classification g' X_train y_train X_test y_test
  ∧ ∀ dumped train_accuracy test_accuracy,
      perform_classification g X_train y_train X_test y_test
      = Some (dumped, (train_accuracy, test_accuracy)) →
      (0 <= train_accuracy <= 1)%Q ∧ (0 <= test_accuracy <= 1)%Q.
Proof.
  intros Hseed. split.
  - unfold perform_classification. by rewrite (Hseed _ g g').
  - intros dumped a b. unfold perform_classification.
    destruct (boost_fit _ g X_train y_train) as [fitted|]; [simpl|done].
    destruct (score fitted X_train y_train) as [a'|] eqn:Ea; [simpl|done].
    destruct (score fitted X_test y_test) as [b'|] eqn:Eb; [simpl|done].
    intros [= _ <- <-]. eauto using score_bounds.
Qed.

End ClassifierClaims.

Section SampleLearner.

Lemma one_rule_seeded : @seeded_fit_is_ambient_free SampleBooster.learner.
Proof.
  intros clf g g' X y [seed Hseed]. simpl. unfold SampleBooster.one_rule.
  by rewrite Hseed.
Qed.

Lemma perform_classification_accuracies_witness :
  @perform_classification SampleBooster.learner 7%Z
     [[1%Z]; [2%Z]; [3%Z]] [1%Z; 1%Z; 0%Z] [[1%Z]; [2%Z]] [0%Z; 1%Z]
  = @perform_classification SampleBooster.learner 42%Z
     [[1%Z]; [2%Z]; [3%Z]] [1%Z; 1%Z; 0%Z] [[1%Z]; [2%Z]] [0%Z; 1%Z]
  ∧ snd <$> @perform_classification SampleBooster.learner 7%Z
              [[1%Z]; [2%Z]; [3%Z]] [1%Z; 1%Z; 0%Z] [[1%Z]; [2%Z]] [0%Z; 1%Z]
    = Some (2 # 3, 1 # 2)%Q.
Proof.
  split; [|vm_compute; reflexivity].
  apply (@perform_classification_accuracies SampleBooster.learner). exact one_rule_seeded.
Defined.

End SampleLearner.


(** ** The normalizer *)

Section Normalizer.
Import PrimFloat Norm.





Example normalize_run :
  normalize_row [0; 2; 0]%float = [0; 1; 0]%float
  ∧ row_norm (normalize_row [3; 4]%float) = 1%float
  ∧ row_norm (normalize_row [1; 1; 0]%float) = 0x1.fffffffffffffp-1%float.
Proof. vm_compute. done. Qed.

End Normalizer.

(* ===================================================================== *)
(** * Part III: further properties of the notebook's code                 *)
(* ===================================================================== *)

(** ** [clean_data] and the labels of its series *)

Section CleanData.
Context `{Py.Unicode} `{TextLibs}.

(** The loop reads the labels it is given one after the other and stops
    at the first that is missing. *)
Lemma clean_data_loop_mapM (dataset : Series) indices cleaned :
  clean_data_loop dataset indices cleaned
  = (rest ← mapM (λ i, review_to_words <$> dataset !! Z.of_nat i) indices;
     Some (cleaned ++ rest)).
Proof.
  revert cleaned. induction indices as [|i indices IH]; intros cleaned; simpl.
  - by rewrite app_nil_r.
  - destruct (dataset !! Z.of_nat i) as [raw|]; simpl; [|done].
    rewrite IH. destruct (mapM _ indices); simpl; [|done].
    by rewrite <- app_assoc.
Qed.

(** X1.  [clean_data] looks the reviews up by the labels 0, 1, ...,
    size - 1.  When it returns, it returns one entry per label, the
    entry at place [i] being the review labelled [i], cleaned; it fails
    exactly when one of these labels is missing from the series (as in a
    series that was filtered or sliced and kept its labels). *)
Theorem clean_data_by_label (dataset : Series) :
  match clean_data dataset with
  | Some cleaned_reviews =>
      length cleaned_reviews = size dataset
      ∧ ∀ i, i < size dataset →
             ∃ raw, dataset !! Z.of_nat i = Some raw
                    ∧ cleaned_reviews !! i = Some (review_to_words raw)
  | None => ∃ i, i < size dataset ∧ dataset !! Z.of_nat i = None
  end.
Proof.
  unfold clean_data. rewrite clean_data_loop_mapM.
  destruct (mapM _ (seq 0 (size dataset))) as [cleaned|] eqn:E; simpl.
  - apply mapM_Some in E. split.
    + apply Forall2_length in E. by rewrite length_seq in E.
    + intros i Hi.
      destruct (Forall2_lookup_l _ _ _ i i E) as (y & Hy & Hf).
      { by rewrite lookup_seq_lt. }
      destruct (dataset !! Z.of_nat i) as [raw|]; [|done].
      exists raw. split; [done|]. by injection Hf as <-.
  - assert (¬ Forall (λ i, is_Some (review_to_words <$> dataset !! Z.of_nat i))
                (seq 0 (size dataset))) as Hnot.
    { intros Hall. apply mapM_is_Some in Hall. rewrite E in Hall. by destruct Hall. }
    apply not_Forall_Exists in Hnot; [|apply _].
    apply Exists_exists in Hnot as (i & Hi%elem_of_seq & Hnone).
    exists i. split; [lia|].
    destruct (dataset !! Z.of_nat i) as [raw|] eqn:Hraw; [|done].
    destruct Hnone. rewrite Hraw. simpl. eauto.
Qed.

End CleanData.

(** ** More on the cleaner *)

Section MoreCleaner.
Import Py.
Context `{Unicode} `{TextLibs}.

(** X3.  Under a stemmer that returns lower-case words for lower-case
    words, the output of [review_to_words] is single-spaced: splitting
    it on whitespace and joining the pieces with one space gives the
    output back, so it has no leading, trailing or doubled space. *)
Theorem review_to_words_single_spaced (raw_review : text) :
  (∀ w, lowercase_word w → lowercase_word (stem w)) →
  join (u " ") (split (review_to_words raw_review)) = review_to_words raw_review.
Proof.
  intros Hstem. rewrite split_review_to_words by done.
  by rewrite <- review_to_words_unfold.
Qed.

(** X4.  [review_to_words] does not see the case of the letters A..Z,
    a..z: two reviews whose stripped texts differ at most in the case of
    such letters are cleaned to the same text. *)
Theorem review_to_words_ignores_letter_case (raw_1 raw_2 : text) :
  same_up_to_letter_case (get_text raw_1) (get_text raw_2) →
  review_to_words raw_1 = review_to_words raw_2.
Proof.
  intros Hsame. rewrite !review_to_words_unfold.
  assert (lower (re_sub_non_letters (get_text raw_1))
          = lower (re_sub_non_letters (get_text raw_2))) as ->; [|done].
  induction Hsame as [|c d s t Hcd Hst IH]; [done|].
  unfold lower, re_sub_non_letters in *. csimpl. rewrite IH. f_equal.
  destruct Hcd as [->|(Hc & Hd & Hlow)]; [done|]. by rewrite Hc, Hd.
Qed.

(** X5.  Under a stemmer that returns lower-case words for lower-case
    words, the tokens of the output are, in order, the stems of the
    words of the text that are not in the stop-word list; the output
    has as many tokens as the text has such words. *)
Theorem review_to_words_tokens_are_stems (raw_review : text) :
  (∀ w, lowercase_word w → lowercase_word (stem w)) →
  let words := split (lower (re_sub_non_letters (get_text raw_review))) in
  let kept := filter (λ w, w ∉ stopwords_words_english) words in
  split (review_to_words raw_review) = stem <$> kept
  ∧ length (split (review_to_words raw_review)) = length kept.
Proof.
  intros Hstem words kept.
  assert (split (review_to_words raw_review) = stem <$> kept) as E.
  { rewrite split_review_to_words by done. f_equal. subst kept words.
    apply list_filter_iff. intros w. by rewrite elem_of_list_to_set. }
  split; [exact E|]. by rewrite E, length_fmap.
Qed.

(** X6.  A review whose words are all stop words is cleaned to the
    empty text. *)
Theorem review_to_words_of_stop_words (raw_review : text) :
  Forall (λ w, w ∈ stopwords_words_english)
         (split (lower (re_sub_non_letters (get_text raw_review)))) →
  review_to_words raw_review = [].
Proof.
  intros Hstops. rewrite review_to_words_unfold, filter_none; [done|].
  eapply Forall_impl; [exact Hstops|]. intros w Hw Hnot.
  apply Hnot. by rewrite elem_of_list_to_set.
Qed.

(** X7.  When the stripped text of a review is the stripped texts of
    two reviews with a space between them, its output tokens are the
    output tokens of the first followed by those of the second (under a
    stemmer that returns lower-case words for lower-case words). *)
Theorem review_to_words_of_two_texts (raw_review part_1 part_2 : text) :
  (∀ w, lowercase_word w → lowercase_word (stem w)) →
  get_text raw_review = get_text part_1 ++ u " " ++ get_text part_2 →
  split (review_to_words raw_review)
  = split (review_to_words part_1) ++ split (review_to_words part_2).
Proof.
  intros Hstem Htext. rewrite !split_review_to_words by done.
  rewrite Htext. unfold re_sub_non_letters, lower. rewrite !fmap_app.
  change (lower_char <$> ((λ c, if is_letter c then c else space) <$> u " "))
    with [space].
  by rewrite split_cut, filter_app, fmap_app.
Qed.

End MoreCleaner.

Section MoreCleanerRuns.
Import Py.

Local Abbreviation sample_clean := (@review_to_words Sample.unicode Sample.libs).
Local Abbreviation sample_split := (@split Sample.unicode).
Local Abbreviation sample_lower := (@lower Sample.unicode).

Lemma review_to_words_single_spaced_witness :
  sample_clean (u "  The   Cats, <b>sat</b>!! on  2 mats ") = u "cat sat mat"
  ∧ join (u " ") (sample_split (sample_clean (u "  The   Cats, <b>sat</b>!! on  2 mats ")))
    = sample_clean (u "  The   Cats, <b>sat</b>!! on  2 mats ").
Proof.
  split; [vm_compute; reflexivity|].
  apply (@review_to_words_single_spaced Sample.unicode Sample.libs).
  exact plural_stem_lowercase.
Defined.

Lemma review_to_words_ignores_letter_case_witness :
  sample_clean (u "The CATS sat") = u "cat sat"
  ∧ sample_clean (u "The CATS sat") = sample_clean (u "tHE cats SAT").
Proof.
  split; [vm_compute; reflexivity|].
  apply (@review_to_words_ignores_letter_case Sample.unicode Sample.libs).
  refine (bool_decide_unpack _ _). vm_compute. exact I.
Defined.

Lemma review_to_words_tokens_are_stems_witness :
  sample_split (sample_clean (u "<p>The Cats <b>sat</b> on 3 mats!</p>"))
    = [u "cat"; u "sat"; u "mat"]
  ∧ length (sample_split (sample_clean (u "<p>The Cats <b>sat</b> on 3 mats!</p>")))
    = length (filter (λ w, w ∉ @stopwords_words_english Sample.libs)
                (sample_split (sample_lower (re_sub_non_letters
                   (@get_text Sample.libs (u "<p>The Cats <b>sat</b> on 3 mats!</p>")))))).
Proof.
  split; [vm_compute; reflexivity|].
  exact (proj2 (@review_to_words_tokens_are_stems Sample.unicode Sample.libs
                  (u "<p>The Cats <b>sat</b> on 3 mats!</p>") plural_stem_lowercase)).
Defined.

Lemma review_to_words_of_stop_words_witness :
  sample_split (sample_lower (re_sub_non_letters
     (@get_text Sample.libs (u "<p>It is THE and of, 2!</p>"))))
    = [u "it"; u "is"; u "the"; u "and"; u "of"]
  ∧ sample_clean (u "<p>It is THE and of, 2!</p>") = [].
Proof.
  split; [vm_compute; reflexivity|].
  apply (@review_to_words_of_stop_words Sample.unicode Sample.libs).
  refine (bool_decide_unpack _ _). vm_compute. exact I.
Defined.

Lemma review_to_words_of_two_texts_witness :
  sample_split (sample_clean (u "<p>The Cats</p> <i>sat on mats</i>"))
    = [u "cat"; u "sat"; u "mat"]
  ∧ sample_split (sample_clean (u "<p>The Cats</p> <i>sat on mats</i>"))
    = sample_split (sample_clean (u "<p>The Cats</p>"))
      ++ sample_split (sample_clean (u "<i>sat on mats</i>")).
Proof.
  split; [vm_compute; reflexivity|].
  apply (@review_to_words_of_two_texts Sample.unicode Sample.libs).
  - exact plural_stem_lowercase.
  - vm_compute. reflexivity.
Defined.

End MoreCleanerRuns.

(** ** Sample runs *)

Section Runs.
Import Py.

Local Abbreviation sample_clean := (@review_to_words Sample.unicode Sample.libs).

Example split_run :
  @split Sample.unicode (u "  to be,  or not ") = [u "to"; u "be,"; u "or"; u "not"].
Proof. vm_compute. reflexivity. Qed.

Example join_run : join (u " ") [u "cat"; u "sat"; u "mat"] = u "cat sat mat".
Proof. vm_compute. reflexivity. Qed.

Example letters_only_run :
  @lower Sample.unicode (re_sub_non_letters (u "It's 9pm: GO!")) = u "it s  pm  go ".
Proof. vm_compute. reflexivity. Qed.

Example review_to_words_run :
  sample_clean (u "<p>The Cats <b>sat</b> on 3 mats!</p>") = u "cat sat mat".
Proof. vm_compute. reflexivity. Qed.

(** A series with the labels 0, 1, 2 is cleaned entry by entry; the
    same series without its first entry still has labels 1 and 2, and
    the loop, which asks for the labels 0 and 1, fails. *)
Example clean_data_run :
  @clean_data Sample.unicode Sample.libs
    (list_to_map [(0, u "ands"); (1, u "The <i>glasses</i> of 2 ponies"); (2, u "Cats!")]%Z)
  = Some [u "and"; u "glass poni"; u "cat"].
Proof. vm_compute. reflexivity. Qed.

Example clean_data_missing_label_run :
  @clean_data Sample.unicode Sample.libs
    (list_to_map [(1, u "The <i>glasses</i> of 2 ponies"); (2, u "Cats!")]%Z)
  = None.
Proof. vm_compute. reflexivity. Qed.

Example select_vocabulary_run :
  select_vocabulary 2 (u <$> ["cat"; "mat"; "cat"; "dog"; "mat"; "cat"]%string)
  = [u "cat"; u "mat"].
Proof. vm_compute. reflexivity. Qed.

Example transform_run :
  snd <$> @transform SampleAnalyzer.word
            (@make_BoW_transform SampleAnalyzer.word
               [u "cat mat cat"; u "dog mat b"; u "cat"]).1
            [u "cat zebra mat cat"; []; u "dog"]
  = Some [[2; 1; 0]; [0; 0; 0]; [0; 0; 1]]%Z.
Proof. vm_compute. reflexivity. Qed.

End Runs.
